(** * GL.JS: the node builder, the renderer and the store of src/gl.js

    A shallow embedding of the four parts of gl.js (createElement and
    createTextElement, render, the Store class, createApp), followed by
    the properties of the library stated over it. *)

From stdpp Require Import base gmap strings list fin_maps pretty.

Set Warnings "-register-all".
Set Default Proof Using "Type".

(** ** JavaScript values

    Numbers are carried as integers: the library never computes with
    them, it only tests them for truthiness and stores them.  A callable
    is known by an identity.  [VNode type props children] is the object
    literal [{type, props, children}] whose [children] field is an array;
    [VObj] is an object given by all its own enumerable properties,
    whatever they are. *)

Inductive value : Type :=
  | VUndefined
  | VNull
  | VBool (b : bool)
  | VNum (n : Z)
  | VStr (s : string)
  | VFun (f : nat)
  | VArr (items : list value)
  | VObj (fields : gmap string value)
  | VNode (type : value) (props : value) (children : list value).

(** An exception: the TypeError the language raises itself, or a value
    thrown by application code. *)
Inductive exn : Type :=
  | TypeError
  | Thrown (v : value).

Inductive result (A : Type) : Type :=
  | Ok (a : A)
  | Throw (e : exn).
Arguments Ok {A} a.
Arguments Throw {A} e.

(** [typeof v] *)
Definition typeof (v : value) : string :=
  match v with
  | VUndefined => "undefined"
  | VNull => "object"
  | VBool _ => "boolean"
  | VNum _ => "number"
  | VStr _ => "string"
  | VFun _ => "function"
  | VArr _ | VObj _ | VNode _ _ _ => "object"
  end.

(** The truthiness that [||] tests. *)
Definition truthy (v : value) : bool :=
  match v with
  | VUndefined | VNull => false
  | VBool b => b
  | VNum n => negb (n =? 0)%Z
  | VStr s => negb (String.eqb s "")
  | VFun _ | VArr _ | VObj _ | VNode _ _ _ => true
  end.

(** [Array.prototype.flat(depth)]: an element that is an array is
    replaced by its own elements, flattened to one level less; at depth 0
    every element is kept as it is. *)
Fixpoint flat (depth : nat) (l : list value) : list value :=
  match depth with
  | 0 => l
  | S d =>
      concat (map (fun x => match x with
                            | VArr ys => flat d ys
                            | _ => [x]
                            end) l)
  end.

(** ** 1. createElement *)

(** [createTextElement(text)] *)
Definition createTextElement (text : value) : value :=
  VNode (VStr "TEXT_ELEMENT") (VObj {[ "nodeValue" := text ]}) [].

(** The arrow function [createElement] maps over its children:
    [child => typeof child === "object" ? child : createTextElement(child)]. *)
Definition wrap_child (child : value) : value :=
  if decide (typeof child = "object") then child else createTextElement child.

(** [createElement(type, props, ...children)]; [children.flat()] is
    [flat] at its default depth 1. *)
Definition createElement (type props : value) (children : list value) : value :=
  VNode type
        (if truthy props then props else VObj ∅)
        (map wrap_child (flat 1 children)).

(** [node.children], and [node.props.nodeValue] for a node whose props
    are a plain object. *)
Definition children_of (node : value) : list value :=
  match node with
  | VNode _ _ children => children
  | _ => []
  end.

Definition nodeValue_of (node : value) : option value :=
  match node with
  | VNode _ (VObj fields) _ => fields !! "nodeValue"
  | _ => None
  end.

(** What the spec calls the string form of a primitive, [String(v)]. *)
Definition string_form (v : value) : option string :=
  match v with
  | VUndefined => Some "undefined"
  | VNull => Some "null"
  | VBool b => Some (if b then "true" else "false")
  | VNum n => Some (pretty n)
  | VStr s => Some s
  | _ => None
  end.

(** ** The host display surface

    The renderer reaches the document through five operations: create an
    element, create a text node, assign a property, append a child and
    remove all children.  A host node is what these operations have made
    of it: its kind, the properties assigned on it and its children in
    order.  The operations are taken to succeed: a host that refuses an
    element type or a child is outside this model, and so is what the
    browser itself does with a property it is given, except for
    [nodeValue] (see [payload]). *)

Inductive hkind : Type :=
  | HText (data : string)
  | HElement (tag : value).

Inductive host : Type :=
  | Host (kind : hkind) (assigned : gmap string value) (subnodes : list host).

Definition hkind_of (h : host) : hkind := let 'Host k _ _ := h in k.
Definition hprops (h : host) : gmap string value := let 'Host _ ps _ := h in ps.
Definition hchildren (h : host) : list host := let 'Host _ _ cs := h in cs.

(** The operations that build the tree, as [render] performs them; an
    append records the child as it stands when it is appended. *)
Inductive hostop : Type :=
  | OpCreateText (data : string)
  | OpCreateElement (tag : value)
  | OpAppend (child : host).

(** A computation of the renderer either throws or returns a result
    together with the building operations it has performed. *)
Definition R (A : Type) : Type := result (A * list hostop).

Definition R_ret {A} (a : A) : R A := Ok (a, []).
Definition R_throw {A} (e : exn) : R A := Throw e.
Definition R_bind {A B} (m : R A) (k : A -> R B) : R B :=
  match m with
  | Ok (a, ops1) =>
      match k a with
      | Ok (b, ops2) => Ok (b, ops1 ++ ops2)
      | Throw e => Throw e
      end
  | Throw e => Throw e
  end.

#[global] Instance R_mret : MRet R := @R_ret.
#[global] Instance R_mbind : MBind R := fun A B k m => R_bind m k.

(** [document.createTextNode(data)] *)
Definition createTextNode (data : string) : R host :=
  Ok (Host (HText data) ∅ [], [OpCreateText data]).

(** [document.createElement(tag)] *)
Definition document_createElement (tag : value) : R host :=
  Ok (Host (HElement tag) ∅ [], [OpCreateElement tag]).

(** [dom[name] = v] *)
Definition assign (name : string) (v : value) (dom : host) : host :=
  let 'Host k ps cs := dom in Host k (<[name := v]> ps) cs.

(** [container.appendChild(dom)] *)
Definition appendChild (container dom : host) : R host :=
  let 'Host k ps cs := container in
  Ok (Host k ps (cs ++ [dom]), [OpAppend dom]).

(** [container.innerHTML = ""] *)
Definition clear (container : host) : host :=
  let 'Host k ps _ := container in Host k ps [].

(** On the host, [nodeValue] of a text node is its text: the data it was
    created with until [nodeValue] is assigned, the assigned value from
    then on (the host turns it into a string). *)
Definition payload (h : host) : option value :=
  match hkind_of h with
  | HText data =>
      match hprops h !! "nodeValue" with
      | Some v => Some v
      | None => Some (VStr data)
      end
  | HElement _ => None
  end.

(** ** 2. render *)

(** The own enumerable properties of a value, which [Object.keys] lists
    and [props[name]] reads; [Object.keys] throws on null and undefined. *)
Definition own_properties (v : value) : result (gmap string value) :=
  match v with
  | VUndefined | VNull => Throw TypeError
  | VBool _ | VNum _ | VFun _ => Ok ∅
  | VStr s =>
      Ok (list_to_map
            (imap (fun i c => (pretty i, VStr (String c EmptyString)))
                  (String.list_ascii_of_string s)))
  | VArr items => Ok (list_to_map (imap (fun i x => (pretty i, x)) items))
  | VObj fields => Ok fields
  | VNode type props children =>
      Ok (<["type" := type]> (<["props" := props]>
          (<["children" := VArr children]> ∅)))
  end.

(** [element.type === "TEXT_ELEMENT"] *)
Definition is_text (type : value) : bool :=
  match type with
  | VStr s => bool_decide (s = "TEXT_ELEMENT")
  | _ => false
  end.

(** [Object.keys(props).forEach(name => { if (name !== "children") dom[name] = props[name] })].
    The keys of an object are distinct, so the order in which they are
    visited does not show in the properties left on [dom]. *)
Definition apply_props (fields : gmap string value) (dom : host) : host :=
  map_fold (fun name v dom =>
              if decide (name ≠ "children") then assign name v dom else dom)
           dom fields.

(** [xs.forEach(x => f(x, acc))] where [f] updates [acc] in place. *)
Definition forEach {A S} (f : A -> S -> R S) : list A -> S -> R S :=
  fix go xs acc :=
    match xs with
    | [] => R_ret acc
    | x :: xs' => acc' ← f x acc; go xs' acc'
    end.

(** [render(element, container)], returning the container as the call
    leaves it.  Of [element] it reads [type], [props] and [children]: a
    node literal has them as its components, a plain object as the
    fields of those names, a field it lacks being undefined.  A value
    that has no props or no array of children throws a TypeError before
    anything reaches the container: null and undefined at
    [element.type], the others at [Object.keys(element.props)] or at
    [element.children.forEach].  For a plain object, mapping over its
    fields prepares the walk over the elements of the field that is an
    array, which is then taken for [children]. *)
Fixpoint render (element : value) (container : host) : R host :=
  match element with
  | VNode type props children =>
      dom ← (if is_text type then createTextNode ""
             else document_createElement type);
      dom ← match own_properties props with
            | Ok fields => R_ret (apply_props fields dom)
            | Throw e => R_throw e
            end;
      dom ← forEach (fun child dom => render child dom) children dom;
      appendChild container dom
  | VObj fields =>
      dom ← (if is_text (default VUndefined (fields !! "type"))
             then createTextNode ""
             else document_createElement (default VUndefined (fields !! "type")));
      dom ← match own_properties (default VUndefined (fields !! "props")) with
            | Ok props => R_ret (apply_props props dom)
            | Throw e => R_throw e
            end;
      match ((fun field =>
                match field with
                | VArr children =>
                    Some (forEach (fun child dom => render child dom) children)
                | _ => None
                end) <$> fields) !! "children" with
      | Some (Some each_child) =>
          dom ← each_child dom;
          appendChild container dom
      | _ => R_throw TypeError
      end
  | _ => R_throw TypeError
  end.

(** ** 3. The store, and 4. createApp

    The world these run in holds the store, the root host node that
    [createApp] is given, the console and whatever else the application's
    own callables act on. *)

Section Flux.
Context {State Action Env : Type}.

(** A subscriber is the [renderApp] closure of [createApp], which holds
    the root component it was created for, or a callable supplied by
    the application, known by an identity. *)
Inductive Listener : Type :=
  | RenderApp (rootComponent : State -> value)
  | Extern (id : nat).

Record Store : Type := mkStore {
  state : State;
  reducer : State -> Action -> result State;
  listeners : list Listener
}.

Record World : Type := mkWorld {
  store : Store;
  rootElement : host;
  console : list string;
  env : Env
}.

(** What calling an application callable does to the world. *)
Variable extern : nat -> World -> result unit * World.

(** A computation either returns or throws, leaves the world changed,
    and has called listeners along the way; each call is recorded with
    the state the store held when the listener was entered. *)
Definition Call : Type := Listener * State.
Definition M (A : Type) : Type := World -> result A * World * list Call.

Definition M_ret {A} (a : A) : M A := fun w => (Ok a, w, []).
Definition M_bind {A B} (m : M A) (k : A -> M B) : M B :=
  fun w =>
    match m w with
    | (Ok a, w1, calls1) =>
        let '(r, w2, calls2) := k a w1 in (r, w2, calls1 ++ calls2)
    | (Throw e, w1, calls1) => (Throw e, w1, calls1)
    end.
#[global] Instance M_mret : MRet M := @M_ret.
#[global] Instance M_mbind : MBind M := fun A B k m => M_bind m k.

Definition throw {A} (e : exn) : M A := fun w => (Throw e, w, []).
Definition lift {A} (r : result A) : M A := fun w => (r, w, []).
Definition this : M Store := fun w => (Ok (store w), w, []).
Definition root : M host := fun w => (Ok (rootElement w), w, []).
Definition update (f : World -> World) : M unit := fun w => (Ok tt, f w, []).

Definition set_state (s : State) (w : World) : World :=
  mkWorld (mkStore s (reducer (store w)) (listeners (store w)))
          (rootElement w) (console w) (env w).
Definition push_listener (l : Listener) (w : World) : World :=
  mkWorld (mkStore (state (store w)) (reducer (store w)) (listeners (store w) ++ [l]))
          (rootElement w) (console w) (env w).
Definition set_root (h : host) (w : World) : World :=
  mkWorld (store w) h (console w) (env w).
Definition console_log (line : string) : M unit :=
  update (fun w => mkWorld (store w) (rootElement w) (console w ++ [line]) (env w)).

(** [xs.forEach(x => f(x))] *)
Definition forEachM {A} (f : A -> M unit) : list A -> M unit :=
  fix go xs :=
    match xs with
    | [] => mret tt
    | x :: xs' => f x;; go xs'
    end.

(** [new Store(reducer, initialState)] *)
Definition Store_new (reducer : State -> Action -> result State)
    (initialState : State) : Store :=
  {| state := initialState; reducer := reducer; listeners := [] |}.

(** [store.getState()] *)
Definition getState : M State :=
  self ← this; mret (state self).

(** [store.subscribe(listener)] *)
Definition subscribe (listener : Listener) : M unit :=
  update (push_listener listener).

(** The body of [renderApp] for a given root component. *)
Definition renderApp (rootComponent : State -> value) : M unit :=
  update (fun w => set_root (clear (rootElement w)) w);;
  s ← getState;
  container ← root;
  match render (rootComponent s) container with
  | Ok (container', _) => update (set_root container')
  | Throw e => throw e
  end.

(** [listener()] *)
Definition call (listener : Listener) : M unit :=
  fun w =>
    let '(r, w', calls) :=
      match listener with
      | RenderApp rootComponent => renderApp rootComponent w
      | Extern id => (extern id w, [])
      end in
    (r, w', (listener, state (store w)) :: calls).

(** [this.listeners.forEach(listener => f(listener))].  [forEach] reads
    the length of the array once and then visits the indexes below it in
    turn; at each it reads the element the array holds at that moment,
    and passes over an index the array no longer has.  So a listener
    appended meanwhile is not visited, and one removed meanwhile is not
    either.  [listeners_forEach f k n] visits the [n] indexes from [k]
    on.  (The array is the list the store holds: whoever changes the
    listeners changes them in place, as [subscribe] does.) *)
Fixpoint listeners_forEach (f : Listener -> M unit) (k n : nat) : M unit :=
  match n with
  | 0 => mret tt
  | S n' =>
      self ← this;
      match listeners self !! k with
      | Some listener => f listener
      | None => mret tt
      end;;
      listeners_forEach f (S k) n'
  end.

(** [store.dispatch(action)] *)
Definition dispatch (action : Action) : M unit :=
  self ← this;
  s ← lift (reducer self (state self) action);
  update (set_state s);;
  self ← this;
  listeners_forEach call 0 (length (listeners self)).

(** [createApp(rootComponent, rootElement, store)] on the world's root
    element and store. *)
Definition createApp (rootComponent : State -> value) : M unit :=
  subscribe (RenderApp rootComponent);;
  console_log "GL.JS Micro-Framework";;
  console_log "Initializing application...";;
  call (RenderApp rootComponent).

End Flux.

(** ** Definitions the statements are written with *)

(** One level of un-nesting: every argument that is a sequence gives its
    items, in order, and every other argument gives itself. *)
Fixpoint unnest_once (args : list value) : list value :=
  match args with
  | [] => []
  | VArr items :: rest => items ++ unnest_once rest
  | item :: rest => item :: unnest_once rest
  end.

(** A tree of node literals that [render] can walk: its props are not
    null or undefined, and its children are such trees again. *)
Fixpoint renderable (node : value) : bool :=
  match node with
  | VNode _ props children =>
      match props with
      | VUndefined | VNull => false
      | _ => true
      end && forallb renderable children
  | _ => false
  end.

(** The host node a tree of node objects describes: the kind its type
    asks for, its props but for ["children"], and the host nodes of its
    children in order. *)
Fixpoint materialize (node : value) : option host :=
  match node with
  | VNode type props children =>
      match own_properties props with
      | Ok fields =>
          kids ← mapM materialize children;
          Some (Host (if is_text type then HText "" else HElement type)
                     (delete "children" fields) kids)
      | Throw _ => None
      end
  | _ => None
  end.

(** The order in which a host subtree is built and attached: the node is
    created, each child subtree is built and attached in turn, and only
    then is the node itself appended. *)
Definition op_create (k : hkind) : hostop :=
  match k with
  | HText data => OpCreateText data
  | HElement tag => OpCreateElement tag
  end.

Fixpoint building (h : host) : list hostop :=
  let 'Host k _ kids := h in
  op_create k :: concat (map building kids) ++ [OpAppend h].

(** [h] with [kids] added after its children. *)
Definition with_children (h : host) (kids : list host) : host :=
  let 'Host k ps cs := h in Host k ps (cs ++ kids).





(** Sample trees and containers for the examples below. *)
Definition sample_body : host := Host (HElement (VStr "body")) ∅ [].

Definition sample_item (s : string) : value :=
  VNode (VStr "li") (VObj ∅) [createTextElement (VStr s)].

Definition sample_list : value :=
  VNode (VStr "ul") (VObj ∅) [sample_item "a"; sample_item "b"; sample_item "c"].


Definition sample_attrs : gmap string value :=
  {[ "a" := VNum 1; "b" := VNum 2; "children" := VNum 3 ]}.

(** A counter application: the state is the count, the action "INC"
    adds one, the action "BOOM" makes the reducer throw, the root
    component shows the count, and the application's own callables note
    their identity in the environment. *)
Definition sample_reducer (s : Z) (action : string) : result Z :=
  if decide (action = "INC") then Ok (s + 1)%Z
  else if decide (action = "BOOM") then Throw (Thrown (VStr "boom"))
  else Ok s.

Definition sample_extern (id : nat) (w : @World Z string (list nat)) :
    result unit * @World Z string (list nat) :=
  (Ok tt, mkWorld (store w) (rootElement w) (console w) (env w ++ [id])).

Definition Counter (s : Z) : value :=
  createElement (VStr "h1") VNull [VNum s].

Definition sample_world (ls : list (@Listener Z)) : @World Z string (list nat) :=
  mkWorld (mkStore 0%Z sample_reducer ls) sample_body [] [].

Section FluxStatements.
Context {State Action Env : Type}.
Variable extern : nat -> @World State Action Env -> result unit * @World State Action Env.

(** What a listener does when it is run, read off what it is: a
    callable of the application does what [extern] says; [renderApp]
    empties the root element and renders into it the tree its root
    component gives for the state of the store, and throws what [render]
    throws. *)
Definition behaviour (l : @Listener State) (w : @World State Action Env) :
    result unit * @World State Action Env :=
  match l with
  | Extern id => extern id w
  | RenderApp rootComponent =>
      match render (rootComponent (state (store w))) (clear (rootElement w)) with
      | Ok (container, _) => (Ok tt, set_root container w)
      | Throw e => (Throw e, set_root (clear (rootElement w)) w)
      end
  end.

(** Running the listeners of a list one after another, each once, up to
    the first that throws: the outcome and the world that is left. *)
Fixpoint run_all (ls : list (@Listener State)) (w : @World State Action Env) :
    result unit * @World State Action Env :=
  match ls with
  | [] => (Ok tt, w)
  | l :: ls' =>
      match behaviour l w with
      | (Ok _, w') => run_all ls' w'
      | (Throw e, w') => (Throw e, w')
      end
  end.

(** The listeners entered in such a run, each with the state of the
    store it finds. *)
Fixpoint entered (ls : list (@Listener State)) (w : @World State Action Env) :
    list (@Call State) :=
  match ls with
  | [] => []
  | l :: ls' =>
      (l, state (store w)) ::
      match behaviour l w with
      | (Ok _, w') => entered ls' w'
      | (Throw _, _) => []
      end
  end.

(** A listener that leaves in place the listeners registered so far: it
    may subscribe more, it removes and replaces none. *)
Definition keeps_listeners (l : @Listener State) : Prop :=
  forall w, listeners (store w) `prefix_of` listeners (store (behaviour l w).2).

(** A listener that returns normally from every world, leaves the state
    of the store as it found it, and leaves in place the listeners
    registered so far. *)
Definition quiet (l : @Listener State) : Prop :=
  forall w, exists w',
    behaviour l w = (Ok tt, w') /\
    state (store w') = state (store w) /\
    listeners (store w) `prefix_of` listeners (store w').

(** [subscribe(l)], [n] times. *)
Definition subscribe_times (n : nat) (l : @Listener State) : @M State Action Env unit :=
  forEachM subscribe (replicate n l).
End FluxStatements.

(** The number of node objects in a tree, and of host nodes in a host
    subtree. *)
Fixpoint node_count (node : value) : nat :=
  match node with
  | VNode _ _ children => S (sum_list (map node_count children))
  | _ => 0
  end.

Fixpoint host_count (h : host) : nat :=
  let 'Host _ _ kids := h in S (sum_list (map host_count kids)).

Section FluxMoreStatements.
Context {State Action Env : Type}.
Variable extern : nat -> @World State Action Env -> result unit * @World State Action Env.

(** A listener that returns normally from every world and leaves the
    store as it found it: state, reducer and listeners. *)
Definition inert (l : @Listener State) : Prop :=
  forall w, exists w',
    behaviour extern l w = (Ok tt, w') /\
    store w' = store w.

(** A listener that throws [e] from every world, the state of the store
    being as it found it. *)
Definition throwing (e : exn) (l : @Listener State) : Prop :=
  forall w, exists w',
    behaviour extern l w = (Throw e, w') /\
    state (store w') = state (store w).

(** The calls a run of dispatches makes when every action is taken to
    its next state by [f]: for each action in turn, every listener once,
    in order, with the state that action led to. *)
Fixpoint notifications (f : State -> Action -> State) (ls : list (@Listener State))
    (s : State) (actions : list Action) : list (@Call State) :=
  match actions with
  | [] => []
  | action :: rest =>
      map (fun l => (l, f s action)) ls ++ notifications f ls (f s action) rest
  end.

(** The world such a run leaves: for each action in turn, the store
    takes the next state and the listeners are run one after another. *)
Fixpoint dispatched (f : State -> Action -> State) (ls : list (@Listener State))
    (actions : list Action) (w : @World State Action Env) :
    @World State Action Env :=
  match actions with
  | [] => w
  | action :: rest =>
      dispatched f ls rest
        (run_all extern ls (set_state (f (state (store w)) action) w)).2
  end.
End FluxMoreStatements.

(** More of the counter application: a callable that throws when its
    identity is 0, and a root component that passes null as a child. *)
Definition sample_faulty_extern (id : nat) (w : @World Z string (list nat)) :
    result unit * @World Z string (list nat) :=
  if decide (id = 0) then (Throw (Thrown (VStr "listener failed")), w)
  else sample_extern id w.


(** A reducer that never throws: "INC" adds one, "DEC" takes one away. *)
Definition sample_step (s : Z) (action : string) : Z :=
  if decide (action = "INC") then (s + 1)%Z
  else if decide (action = "DEC") then (s - 1)%Z
  else s.

Definition sample_total_world (ls : list (@Listener Z)) :
    @World Z string (list nat) :=
  mkWorld (mkStore 0%Z (fun s action => Ok (sample_step s action)) ls)
          sample_body [] [].

(** A world whose root element still shows an earlier render. *)
Definition sample_stale_world (ls : list (@Listener Z)) :
    @World Z string (list nat) :=
  mkWorld (mkStore 0%Z sample_reducer ls)
          (Host (HElement (VStr "body")) ∅ [Host (HText "old") ∅ []]) [] [].

(** * Properties *)

(** ** The node builder *)

Lemma flat_1_unnest (args : list value) : flat 1 args = unnest_once args.
Proof.
  induction args as [|a rest IH]; [reflexivity|].
  change (flat 1 (a :: rest))
    with ((match a with VArr ys => ys | _ => [a] end) ++ flat 1 rest).
  rewrite IH. by destruct a.
Qed.

Lemma unnest_once_app (xs ys : list value) :
  unnest_once (xs ++ ys) = unnest_once xs ++ unnest_once ys.
Proof.
  induction xs as [|x xs IH]; [reflexivity|].
  destruct x; simpl; rewrite IH; try reflexivity. by rewrite app_assoc.
Qed.

Lemma createElement_children (type props : value) (args : list value) :
  children_of (createElement type props args) = map wrap_child (unnest_once args).
Proof. unfold createElement. cbn [children_of]. by rewrite flat_1_unnest. Qed.

(** C5. The children of a built node are the arguments in order, each
    sequence among them replaced by its items (one level only: a sequence
    inside a sequence stays an item), each item then wrapped or kept by
    [wrap_child].  So the content built from a concatenation of arguments
    is the concatenation of the contents, and a sequence argument gives
    the content of its items. *)
Theorem createElement_flattens_once (type props : value) (args : list value) :
  children_of (createElement type props args) = map wrap_child (unnest_once args)
  /\ (forall xs ys,
        children_of (createElement type props (xs ++ ys)) =
        children_of (createElement type props xs) ++
        children_of (createElement type props ys))
  /\ (forall items,
        children_of (createElement type props [VArr items]) = map wrap_child items)
  /\ (forall items,
        children_of (createElement type props [VArr [VArr items]]) = [VArr items]).
Proof.
  repeat split.
  - apply createElement_children.
  - intros xs ys. rewrite !createElement_children, unnest_once_app. apply map_app.
  - intros items. rewrite createElement_children. simpl. by rewrite app_nil_r.
Qed.

Lemma wrap_child_text (v : value) :
  typeof v <> "object" -> wrap_child v = createTextElement v.
Proof. intros Hv. unfold wrap_child. by destruct (decide _). Qed.

Lemma wrap_child_object (v : value) :
  typeof v = "object" -> wrap_child v = v.
Proof. intros Hv. unfold wrap_child. by destruct (decide _). Qed.

Lemma unnest_once_lone (v : value) :
  typeof v <> "object" -> unnest_once [v] = [v].
Proof. by destruct v. Qed.

(** C4, as the code has it.  A lone content item whose [typeof] is not
    ["object"] (a string, a number, a boolean, undefined, a function)
    gives exactly one child: a text node with no children that stores
    the item itself under [nodeValue], not its string form; the two agree
    when the item is a string. *)
Theorem createElement_wraps_primitive (type props v : value) :
  typeof v <> "object" ->
  createElement type props [v] =
    VNode type (if truthy props then props else VObj ∅)
          [VNode (VStr "TEXT_ELEMENT") (VObj {[ "nodeValue" := v ]}) []]
  /\ (forall s, v = VStr s -> string_form v = Some s).
Proof.
  intros Hv. split.
  - unfold createElement. rewrite flat_1_unnest, unnest_once_lone by done.
    simpl. by rewrite wrap_child_text.
  - by intros s ->.
Qed.

Lemma createElement_wraps_primitive_witness :
  typeof (VNum 5) <> "object" /\
  createElement (VStr "p") VNull [VNum 5] =
    VNode (VStr "p") (VObj ∅)
          [VNode (VStr "TEXT_ELEMENT") (VObj {[ "nodeValue" := VNum 5 ]}) []].
Proof.
  split; [discriminate|].
  apply (createElement_wraps_primitive (VStr "p") VNull (VNum 5)). discriminate.
Defined.

(** C4 fails as stated: the text child built for the number 5 stores the
    number 5, while the string form of 5 is the string "5"; and the
    primitive null gets no text child at all. *)
Lemma createElement_payload_not_string_form :
  (exists child,
     children_of (createElement (VStr "p") VNull [VNum 5]) = [child] /\
     nodeValue_of child = Some (VNum 5) /\
     string_form (VNum 5) = Some "5" /\
     nodeValue_of child <> Some (VStr "5"))
  /\ children_of (createElement (VStr "p") VNull [VNull]) = [VNull].
Proof.
  split; [|reflexivity].
  eexists. split; [reflexivity|]. split; [reflexivity|]. split; [reflexivity|].
  intros H. vm_compute in H. discriminate.
Qed.

(** C10. Every flattened item whose [typeof] is ["object"] (null, an
    array left after flattening, any object) is the child at its position
    unchanged, and only the others are wrapped in a text node. *)
Theorem createElement_passes_objects (type props : value) (args : list value)
    (i : nat) (item : value) :
  flat 1 args !! i = Some item ->
  (typeof item = "object" ->
     children_of (createElement type props args) !! i = Some item)
  /\ (typeof item <> "object" ->
     children_of (createElement type props args) !! i = Some (createTextElement item)).
Proof.
  intros Hi. unfold createElement. cbn [children_of].
  rewrite list_lookup_fmap, Hi. simpl.
  split; intros Hty; [by rewrite wrap_child_object | by rewrite wrap_child_text].
Qed.

Lemma createElement_passes_objects_witness :
  flat 1 [VNull] !! 0 = Some VNull /\
  typeof VNull = "object" /\
  children_of (createElement (VStr "div") VNull [VNull]) !! 0 = Some VNull /\
  createElement (VStr "div") VNull [VNull] = VNode (VStr "div") (VObj ∅) [VNull].
Proof.
  split; [reflexivity|]. split; [reflexivity|]. split; [|reflexivity].
  apply (createElement_passes_objects (VStr "div") VNull [VNull] 0 VNull);
    reflexivity.
Defined.

(** ** The renderer *)

(** Induction over a tree of node objects. *)
Lemma value_node_ind (P : value -> Prop) :
  (forall type props children,
     Forall P children -> P (VNode type props children)) ->
  (forall v, (forall type props children, v <> VNode type props children) -> P v) ->
  forall v, P v.
Proof.
  intros Hnode Hother.
  fix IH 1. intros v.
  destruct v as [| | | | | | |fields|type props children];
    try (apply Hother; discriminate).
  apply Hnode.
  induction children as [|child children IHc]; constructor; [apply IH | apply IHc].
Qed.

Lemma apply_props_spec (fields : gmap string value) k ps cs :
  apply_props fields (Host k ps cs) = Host k (delete "children" fields ∪ ps) cs.
Proof.
  unfold apply_props.
  apply (map_fold_weak_ind
           (fun r m => r = Host k (delete "children" m ∪ ps) cs)).
  - by rewrite delete_empty, (left_id_L ∅ (∪)).
  - intros name v m r Hfresh ->.
    destruct (decide (name ≠ "children")) as [Hne|Heq].
    + simpl. by rewrite delete_insert_ne, insert_union_l.
    + apply dec_stable in Heq. subst name. by rewrite delete_insert_eq.
Qed.

Lemma with_children_nil (h : host) : with_children h [] = h.
Proof. destruct h. simpl. by rewrite app_nil_r. Qed.

Lemma with_children_app (h : host) (xs ys : list host) :
  with_children (with_children h xs) ys = with_children h (xs ++ ys).
Proof. destruct h. simpl. by rewrite app_assoc. Qed.

Lemma appendChild_spec (container dom : host) :
  appendChild container dom = Ok (with_children container [dom], [OpAppend dom]).
Proof. by destruct container. Qed.

Lemma R_bind_Ok {A B} (k : A -> R B) (a : A) (ops : list hostop) :
  (Ok (a, ops) ≫= k : R B) =
  match k a with
  | Ok (b, ops') => Ok (b, ops ++ ops')
  | Throw e => Throw e
  end.
Proof. reflexivity. Qed.

Lemma forEach_cons {A S} (f : A -> S -> R S) (x : A) (xs : list A) (acc : S) :
  forEach f (x :: xs) acc = (f x acc ≫= forEach f xs).
Proof. reflexivity. Qed.

Lemma render_node (type props : value) (children : list value) (container : host) :
  render (VNode type props children) container =
  (dom ← (if is_text type then createTextNode ""
          else document_createElement type);
   dom ← match own_properties props with
         | Ok fields => R_ret (apply_props fields dom)
         | Throw e => R_throw e
         end;
   dom ← forEach (fun child dom => render child dom) children dom;
   appendChild container dom).
Proof. reflexivity. Qed.

Lemma forEach_render (children : list value) :
  Forall (fun child => forall dom container,
            materialize child = Some dom ->
            render child container =
              Ok (with_children container [dom], building dom)) children ->
  forall kids dom,
    mapM materialize children = Some kids ->
    forEach (fun child dom => render child dom) children dom =
      Ok (with_children dom kids, concat (map building kids)).
Proof.
  induction 1 as [|child children Hchild _ IH]; intros kids dom Hkids.
  - injection Hkids as <-. simpl. by rewrite with_children_nil.
  - cbn [mapM] in Hkids.
    destruct (materialize child) as [kid|] eqn:Hkid; [|discriminate].
    destruct (mapM materialize children) as [kids'|] eqn:Hkids'; [|discriminate].
    injection Hkids as <-.
    rewrite forEach_cons, (Hchild kid dom eq_refl), R_bind_Ok.
    rewrite (IH kids' _ eq_refl). cbn [map concat].
    by rewrite with_children_app.
Qed.

(** On a tree [materialize] accepts, [render] appends the host node it
    describes and builds it in the order [building] gives. *)
Lemma render_materialized (element : value) :
  forall dom container,
    materialize element = Some dom ->
    render element container = Ok (with_children container [dom], building dom).
Proof.
  induction element as [type props children IH|v Hv] using value_node_ind;
    intros dom container Hdom.
  - rewrite render_node. cbn [materialize] in Hdom.
    destruct (own_properties props) as [fields|e] eqn:Hprops; [|discriminate].
    destruct (mapM materialize children) as [kids|] eqn:Hkids; [|discriminate].
    injection Hdom as <-.
    assert (forall k, apply_props fields (Host k ∅ []) =
                      Host k (delete "children" fields) []) as Hap.
    { intros k. by rewrite apply_props_spec, (right_id_L ∅ (∪)). }
    destruct (is_text type);
      unfold createTextNode, document_createElement, R_ret;
      rewrite !R_bind_Ok, Hap, (forEach_render children IH kids _ Hkids);
      rewrite R_bind_Ok, appendChild_spec; reflexivity.
  - destruct v as [| | | | | | | |type props children]; try discriminate.
    by destruct (Hv type props children).
Qed.

Lemma renderable_materialize (node : value) :
  renderable node = true -> is_Some (materialize node).
Proof.
  induction node as [type props children IH|v Hv] using value_node_ind.
  - cbn [renderable materialize]. intros [Hprops Hkids]%andb_true_iff.
    assert (is_Some (mapM materialize children)) as [kids Hk].
    { apply mapM_is_Some. clear Hprops.
      induction IH as [|child children Hchild _ IHc]; [constructor|].
      cbn [forallb] in Hkids. apply andb_true_iff in Hkids as [Hc Hcs].
      constructor; [by apply Hchild | by apply IHc]. }
    rewrite Hk. destruct props; try discriminate; simpl; eauto.
  - destruct v as [| | | | | | | |type props children]; try discriminate.
    by destruct (Hv type props children).
Qed.

Lemma materialize_children (type props : value) (children : list value) (dom : host) :
  materialize (VNode type props children) = Some dom ->
  Forall2 (fun child kid => materialize child = Some kid) children (hchildren dom)
  /\ hkind_of dom = (if is_text type then HText "" else HElement type)
  /\ exists fields, own_properties props = Ok fields /\
                    hprops dom = delete "children" fields.
Proof.
  cbn [materialize].
  destruct (own_properties props) as [fields|]; [|discriminate].
  destruct (mapM materialize children) as [kids|] eqn:Hk; [|discriminate].
  intros [= <-]. split; [by apply mapM_Some|]. split; [reflexivity|]. eauto.
Qed.

Lemma building_unfold (h : host) :
  building h =
  op_create (hkind_of h) :: concat (map building (hchildren h)) ++ [OpAppend h].
Proof. by destruct h. Qed.

(** C3. Rendering a node with [k] content items into [parent] returns,
    leaves [parent] as it was but for one more child [dom] at the end,
    and [dom] has [k] children: the [i]-th is the host node that [render]
    makes of the [i]-th content item.  The building operations run in
    this order: [dom] is created; then, for each content item in turn,
    all the operations of that item's subtree, the last of which appends
    the finished child; and last of all [dom] is appended. *)
Theorem render_appends_subtree (type props : value) (content : list value)
    (parent : host) :
  renderable (VNode type props content) = true ->
  exists dom parent' ops,
    render (VNode type props content) parent = Ok (parent', ops)
    /\ hkind_of parent' = hkind_of parent
    /\ hprops parent' = hprops parent
    /\ hchildren parent' = hchildren parent ++ [dom]
    /\ length (hchildren dom) = length content
    /\ Forall2 (fun child kid =>
                  forall container,
                    render child container =
                    Ok (with_children container [kid], building kid))
               content (hchildren dom)
    /\ ops = op_create (hkind_of dom)
             :: concat (map building (hchildren dom)) ++ [OpAppend dom]
    /\ Forall (fun kid => exists before, building kid = before ++ [OpAppend kid])
              (hchildren dom).
Proof.
  intros Hwf. destruct (renderable_materialize _ Hwf) as [dom Hdom].
  exists dom, (with_children parent [dom]), (building dom).
  destruct (materialize_children _ _ _ _ Hdom) as (Hkids & _ & _).
  split; [by apply render_materialized|].
  split; [by destruct parent|]. split; [by destruct parent|].
  split; [by destruct parent|].
  split; [symmetry; by eapply Forall2_length|].
  split.
  { eapply Forall2_impl; [exact Hkids|]. intros child kid Hck container.
    by apply render_materialized. }
  split; [apply building_unfold|].
  apply Forall_forall. intros kid _. rewrite building_unfold.
  by exists (op_create (hkind_of kid) :: concat (map building (hchildren kid))).
Qed.

Lemma render_appends_subtree_witness :
  renderable sample_list = true /\
  exists dom parent' ops,
    render sample_list sample_body = Ok (parent', ops)
    /\ hchildren parent' = [dom]
    /\ length (hchildren dom) = 3.
Proof.
  split; [reflexivity|].
  destruct (render_appends_subtree (VStr "ul") (VObj ∅)
              [sample_item "a"; sample_item "b"; sample_item "c"]
              sample_body eq_refl)
    as (dom & parent' & ops & Hrender & _ & _ & Hkids & Hlen & _).
  exists dom, parent', ops. auto.
Defined.

(** Rendering a node whose props are a plain object. *)
Lemma render_object_props (type : value) (attrs : gmap string value)
    (content : list value) (parent : host) :
  forallb renderable content = true ->
  exists kids,
    mapM materialize content = Some kids /\
    render (VNode type (VObj attrs) content) parent =
      Ok (with_children parent
            [Host (if is_text type then HText "" else HElement type)
                  (delete "children" attrs) kids],
          building (Host (if is_text type then HText "" else HElement type)
                         (delete "children" attrs) kids)).
Proof.
  intros Hcontent.
  assert (renderable (VNode type (VObj attrs) content) = true) as Hwf
    by exact Hcontent.
  destruct (renderable_materialize _ Hwf) as [dom Hdom].
  rewrite (render_materialized _ dom parent Hdom).
  cbn [materialize own_properties] in Hdom.
  destruct (mapM materialize content) as [kids|]; [|discriminate].
  injection Hdom as <-. by exists kids.
Qed.

(** C6. Rendering a node whose props are the object [attrs] returns when
    its children are renderable, and on the host node it creates every
    key of [attrs] other than ["children"] is assigned the value [attrs]
    holds for it, nothing else is assigned, and nothing is ever assigned
    under ["children"], whether [attrs] has that key or not. *)
Theorem render_assigns_attributes (type : value) (attrs : gmap string value)
    (content : list value) (parent : host) :
  forallb renderable content = true ->
  exists dom ops,
    render (VNode type (VObj attrs) content) parent =
      Ok (with_children parent [dom], ops)
    /\ (forall key, key <> "children" -> hprops dom !! key = attrs !! key)
    /\ hprops dom !! "children" = None.
Proof.
  intros Hcontent.
  destruct (render_object_props type attrs content parent Hcontent)
    as (kids & _ & Hrender).
  eexists _, _. split; [exact Hrender|].
  split; [intros key Hkey; by apply lookup_delete_ne | apply lookup_delete_eq].
Qed.

Lemma render_assigns_attributes_witness :
  exists dom ops,
    render (VNode (VStr "div") (VObj sample_attrs) []) sample_body =
      Ok (with_children sample_body [dom], ops)
    /\ hprops dom !! "a" = Some (VNum 1)
    /\ hprops dom !! "b" = Some (VNum 2)
    /\ hprops dom !! "children" = None.
Proof.
  destruct (render_assigns_attributes (VStr "div") sample_attrs [] sample_body eq_refl)
    as (dom & ops & Hrender & Hkeys & Hchildren).
  exists dom, ops. split; [exact Hrender|].
  split; [by rewrite Hkeys|]. split; [by rewrite Hkeys | exact Hchildren].
Defined.

(** C1, as the code has it.  Rendering a text node whose props hold
    [text] under [nodeValue] creates the host text node with empty data
    and then, in the loop over the props, assigns [text] to its
    [nodeValue]: the host text node carries [text]. *)
Theorem render_text_assigns_nodeValue (fields : gmap string value) (text : value)
    (container : host) :
  fields !! "nodeValue" = Some text ->
  exists dom ops,
    render (VNode (VStr "TEXT_ELEMENT") (VObj fields) []) container =
      Ok (with_children container [dom], ops)
    /\ hkind_of dom = HText ""
    /\ hchildren dom = []
    /\ hprops dom !! "nodeValue" = Some text
    /\ payload dom = Some text.
Proof.
  intros Htext.
  destruct (render_object_props (VStr "TEXT_ELEMENT") fields [] container eq_refl)
    as (kids & [= <-] & Hrender).
  eexists _, _. split; [exact Hrender|].
  assert (delete "children" fields !! "nodeValue" = Some text) as Hnv
    by (by rewrite lookup_delete_ne).
  repeat split; try done.
  unfold payload. cbn [hkind_of hprops is_text]. by rewrite Hnv.
Qed.

Lemma render_text_assigns_nodeValue_witness :
  exists dom ops,
    render (createTextElement (VStr "Count: 0")) sample_body =
      Ok (with_children sample_body [dom], ops)
    /\ payload dom = Some (VStr "Count: 0").
Proof.
  destruct (render_text_assigns_nodeValue
              {[ "nodeValue" := VStr "Count: 0" ]} (VStr "Count: 0")
              sample_body (lookup_singleton_eq _ _))
    as (dom & ops & Hrender & _ & _ & _ & Hpayload).
  exists dom, ops. split; [exact Hrender | exact Hpayload].
Defined.

(** C1 fails as stated: the host text node made for the text "hi" has
    been assigned "hi" under [nodeValue], and carries "hi", not the empty
    string. *)
Lemma render_text_not_empty :
  exists dom ops,
    render (createTextElement (VStr "hi")) sample_body =
      Ok (with_children sample_body [dom], ops)
    /\ hkind_of dom = HText ""
    /\ hprops dom !! "nodeValue" = Some (VStr "hi")
    /\ payload dom = Some (VStr "hi")
    /\ payload dom <> Some (VStr "").
Proof.
  exists (Host (HText "") {[ "nodeValue" := VStr "hi" ]} []), 
    [OpCreateText ""; OpAppend (Host (HText "") {[ "nodeValue" := VStr "hi" ]} [])].
  split; [by vm_compute|]. split; [reflexivity|].
  split; [by vm_compute|]. split; [by vm_compute|].
  intros H. vm_compute in H. discriminate.
Qed.

(** ** The store and createApp *)

Section FluxProperties.
Context {State Action Env : Type}.
Variable extern : nat -> @World State Action Env -> result unit * @World State Action Env.

Abbreviation World := (@World State Action Env).
Abbreviation Listener := (@Listener State).

Lemma M_bind_run {A B} (m : M A) (k : A -> M B) (w : World) :
  (m ≫= k) w =
  match m w with
  | (Ok a, w1, calls1) =>
      let '(r, w2, calls2) := k a w1 in (r, w2, calls1 ++ calls2)
  | (Throw e, w1, calls1) => (Throw e, w1, calls1)
  end.
Proof. reflexivity. Qed.

Lemma update_bind {B} (f : World -> World) (k : unit -> M B) (w : World) :
  (update f ≫= k) w = k tt (f w).
Proof.
  rewrite M_bind_run. cbn [update].
  by destruct (k tt (f w)) as [[r w2] calls2].
Qed.

Lemma this_bind {B} (k : Store -> M B) (w : World) :
  (this ≫= k) w = k (store w) w.
Proof.
  rewrite M_bind_run. cbn [this].
  by destruct (k (store w) w) as [[r w2] calls2].
Qed.

Lemma listeners_forEach_step (f : Listener -> M unit) (k n : nat) (w : World) :
  listeners_forEach f k (S n) w =
  match listeners (store w) !! k with
  | Some l =>
      match f l w with
      | (Ok _, w1, calls1) =>
          let '(r, w2, calls2) := listeners_forEach f (S k) n w1 in
          (r, w2, calls1 ++ calls2)
      | (Throw e, w1, calls1) => (Throw e, w1, calls1)
      end
  | None => listeners_forEach f (S k) n w
  end.
Proof.
  cbn [listeners_forEach]. rewrite this_bind, M_bind_run.
  destruct (listeners (store w) !! k) as [l|].
  - reflexivity.
  - cbn [mret M_mret M_ret].
    by destruct (listeners_forEach f (S k) n w) as [[r w2] calls2].
Qed.

Lemma dispatch_run (action : Action) (w : World) :
  dispatch extern action w =
  match reducer (store w) (state (store w)) action with
  | Ok s =>
      listeners_forEach (call extern) 0 (length (listeners (store w)))
                        (set_state s w)
  | Throw e => (Throw e, w, [])
  end.
Proof.
  unfold dispatch. rewrite this_bind, M_bind_run. unfold lift at 1.
  destruct (reducer (store w) (state (store w)) action) as [s|e]; [|reflexivity].
  rewrite update_bind, this_bind. cbn [set_state store listeners].
  by destruct (listeners_forEach _ _ _ _) as [[r w2] calls2].
Qed.

Lemma forEachM_nil {A} (f : A -> M unit) (w : World) :
  forEachM f [] w = (Ok tt, w, []).
Proof. reflexivity. Qed.

Lemma forEachM_cons {A} (f : A -> M unit) (x : A) (xs : list A) (w : World) :
  forEachM f (x :: xs) w =
  match f x w with
  | (Ok _, w1, calls1) =>
      let '(r, w2, calls2) := forEachM f xs w1 in (r, w2, calls1 ++ calls2)
  | (Throw e, w1, calls1) => (Throw e, w1, calls1)
  end.
Proof. reflexivity. Qed.

(** [renderApp], run: the root element is emptied, and then holds what
    [render] makes of it, or stays empty when [render] throws. *)
Lemma renderApp_unfold (rootComponent : State -> value) (w : World) :
  renderApp rootComponent w =
  match render (rootComponent (state (store w))) (clear (rootElement w)) with
  | Ok (container, _) => (Ok tt, set_root container w, [])
  | Throw e => (Throw e, set_root (clear (rootElement w)) w, [])
  end.
Proof.
  unfold renderApp, getState. rewrite update_bind, M_bind_run, this_bind.
  cbn [mret M_mret M_ret]. rewrite M_bind_run.
  cbn [root set_root store rootElement state].
  by destruct (render _ _) as [[container ops]|e].
Qed.

(** A call runs the listener and records it. *)
Lemma call_behaviour (l : Listener) (w : World) :
  call extern l w =
  ((behaviour extern l w).1, (behaviour extern l w).2, [(l, state (store w))]).
Proof.
  unfold call, behaviour. destruct l as [rootComponent|id].
  - rewrite renderApp_unfold.
    by destruct (render _ _) as [[container ops]|e].
  - by destruct (extern id w) as [r w'].
Qed.

(** While the listeners keep those registered so far in place, the walk
    over the array runs the listeners it started with, one after
    another, up to the first that throws. *)
Lemma notify_live (todo : list Listener) :
  forall (visited : list Listener) (w : World),
    (visited ++ todo) `prefix_of` listeners (store w) ->
    (forall l, l ∈ todo -> keeps_listeners extern l) ->
    listeners_forEach (call extern) (length visited) (length todo) w =
    ((run_all extern todo w).1, (run_all extern todo w).2,
     entered extern todo w).
Proof.
  induction todo as [|l todo IH]; intros visited w Hprefix Hkeep.
  - reflexivity.
  - cbn [length]. rewrite listeners_forEach_step.
    assert (listeners (store w) !! length visited = Some l) as ->.
    { destruct Hprefix as [more ->]. rewrite <-app_assoc.
      by rewrite lookup_app_r, Nat.sub_diag by lia. }
    rewrite call_behaviour. cbn [run_all entered].
    pose proof (Hkeep l (list_elem_of_here _ _) w) as Hl.
    destruct (behaviour extern l w) as [[[]|e] w1]; [|reflexivity].
    cbn [fst snd] in *.
    replace (S (length visited)) with (length (visited ++ [l]))
      by (rewrite length_app; simpl; lia).
    rewrite IH.
    + reflexivity.
    + rewrite <-app_assoc. cbn [app]. by etrans.
    + intros l' Hl'. apply Hkeep. by apply list_elem_of_further.
Qed.

Lemma dispatch_live (action : Action) (w : World) (s' : State) :
  reducer (store w) (state (store w)) action = Ok s' ->
  (forall l, l ∈ listeners (store w) -> keeps_listeners extern l) ->
  dispatch extern action w =
  ((run_all extern (listeners (store w)) (set_state s' w)).1,
   (run_all extern (listeners (store w)) (set_state s' w)).2,
   entered extern (listeners (store w)) (set_state s' w)).
Proof.
  intros Hred Hkeep. rewrite dispatch_run, Hred.
  by apply (notify_live (listeners (store w)) []).
Qed.

Lemma quiet_keeps (l : Listener) : quiet extern l -> keeps_listeners extern l.
Proof. intros Hq w. by destruct (Hq w) as (w' & -> & _ & Hls). Qed.

(** Quiet listeners all run, and each finds the state the run started
    with. *)
Lemma run_all_quiet (ls : list Listener) :
  (forall l, l ∈ ls -> quiet extern l) ->
  forall w, exists w',
    run_all extern ls w = (Ok tt, w')
    /\ entered extern ls w = map (fun l => (l, state (store w))) ls
    /\ state (store w') = state (store w)
    /\ listeners (store w) `prefix_of` listeners (store w').
Proof.
  induction ls as [|l ls IH]; intros Hquiet w.
  - by exists w.
  - destruct (Hquiet l (list_elem_of_here _ _) w) as (w1 & Hl & Hstate1 & Hls1).
    destruct (IH (fun l' Hl' => Hquiet l' (list_elem_of_further _ _ _ Hl')) w1)
      as (w2 & Hrun & Hent & Hstate2 & Hls2).
    exists w2. cbn [run_all entered map]. rewrite Hl, Hrun, Hent, Hstate1.
    split; [reflexivity|]. split; [reflexivity|].
    split; [congruence | by etrans].
Qed.

(** C2. When the reducer returns [s'] for the state the store holds and
    the action, and the subscribers are quiet, [dispatch] returns; the
    world it leaves is the one reached, from the store holding [s'], by
    running every subscriber once per registration, in subscription
    order; each was entered with the store already holding [s'], and
    [s'] is the state [dispatch] leaves.  The new state is the reducer's
    value at the old state and the action, whatever else the world
    holds. *)
Theorem dispatch_updates_then_notifies (action : Action) (w : World) (s' : State) :
  reducer (store w) (state (store w)) action = Ok s' ->
  (forall l, l ∈ listeners (store w) -> quiet extern l) ->
  exists w',
    dispatch extern action w =
      (Ok tt, w', map (fun l => (l, s')) (listeners (store w)))
    /\ run_all extern (listeners (store w)) (set_state s' w) = (Ok tt, w')
    /\ state (store w') = s'.
Proof.
  intros Hred Hquiet.
  destruct (run_all_quiet (listeners (store w)) Hquiet (set_state s' w))
    as (w' & Hrun & Hent & Hstate & _).
  exists w'. rewrite (dispatch_live action w s' Hred).
  - rewrite Hrun, Hent. split; [reflexivity|]. split; [reflexivity|exact Hstate].
  - intros l Hl. by apply quiet_keeps, Hquiet.
Qed.

(** C9. When the reducer throws, [dispatch] throws the same exception,
    the world (the state of the store with it) is as it was before the
    call, and no listener has been called. *)
Theorem dispatch_reducer_throws (action : Action) (w : World) (e : exn) :
  reducer (store w) (state (store w)) action = Throw e ->
  dispatch extern action w = (Throw e, w, []).
Proof. intros Hred. by rewrite dispatch_run, Hred. Qed.

Lemma subscribe_times_run (n : nat) (l : Listener) (w : World) :
  subscribe_times n l w =
    (Ok tt,
     mkWorld (mkStore (state (store w)) (reducer (store w))
                      (listeners (store w) ++ replicate n l))
             (rootElement w) (console w) (env w),
     []).
Proof.
  unfold subscribe_times. revert w.
  induction n as [|n IH]; intros w.
  - simpl. rewrite app_nil_r. by destruct w as [[]].
  - cbn [replicate]. rewrite forEachM_cons. cbn [subscribe update].
    rewrite IH. cbn [push_listener store state reducer listeners
                     rootElement console env].
    by rewrite <-app_assoc.
Qed.

(** C7. [subscribe] puts the listener after those already registered,
    whether or not it is among them; after [n] subscriptions of [l] the
    store lists [l] [n] more times at the end, and a dispatch then runs
    the earlier subscribers in their order and after them [l], [n]
    times: the world it leaves is the one reached by running that list,
    each entry once. *)
Theorem subscribe_appends_each_time (l : Listener) (n : nat)
    (action : Action) (w : World) (s' : State) :
  reducer (store w) (state (store w)) action = Ok s' ->
  (forall l', l' ∈ listeners (store w) ++ replicate n l -> quiet extern l') ->
  subscribe l w = (Ok tt, push_listener l w, [])
  /\ listeners (store (push_listener l w)) = listeners (store w) ++ [l]
  /\ exists w1 w2,
       subscribe_times n l w = (Ok tt, w1, [])
       /\ listeners (store w1) = listeners (store w) ++ replicate n l
       /\ dispatch extern action w1 =
            (Ok tt, w2,
             map (fun l' => (l', s')) (listeners (store w))
               ++ replicate n (l, s'))
       /\ run_all extern (listeners (store w) ++ replicate n l)
                   (set_state s' w1) = (Ok tt, w2).
Proof.
  intros Hred Hquiet. split; [reflexivity|]. split; [reflexivity|].
  eexists _. rewrite subscribe_times_run.
  match goal with
  | |- exists w2, (_, ?w1, _) = _ /\ _ =>
      destruct (run_all_quiet _ Hquiet (set_state s' w1))
        as (w2 & Hrun & Hent & _ & _);
      assert (dispatch extern action w1 =
              (Ok tt, w2,
               map (fun l' => (l', s')) (listeners (store w) ++ replicate n l)))
        as Hdispatch
  end.
  { rewrite (dispatch_live action _ s').
    - cbn [store listeners] in *. by rewrite Hrun, Hent.
    - exact Hred.
    - intros l' Hl'. by apply quiet_keeps, Hquiet. }
  exists w2. split; [reflexivity|]. split; [reflexivity|].
  split; [|exact Hrun].
  rewrite Hdispatch, map_app. do 2 f_equal.
  apply (fmap_replicate (fun l' : Listener => (l', s')) n l).
Qed.

Lemma behaviour_renderApp (rootComponent : State -> value) (w : World) (dom : host) :
  materialize (rootComponent (state (store w))) = Some dom ->
  behaviour extern (RenderApp rootComponent) w =
    (Ok tt, set_root (with_children (clear (rootElement w)) [dom]) w).
Proof.
  intros Hdom. unfold behaviour.
  by rewrite (render_materialized _ dom _ Hdom).
Qed.

Lemma renderApp_run (rootComponent : State -> value) (w : World) (dom : host) :
  materialize (rootComponent (state (store w))) = Some dom ->
  renderApp rootComponent w =
    (Ok tt, set_root (with_children (clear (rootElement w)) [dom]) w, []).
Proof.
  intros Hdom. rewrite renderApp_unfold.
  by rewrite (render_materialized _ dom _ Hdom).
Qed.

Lemma call_renderApp (rootComponent : State -> value) (w : World) (dom : host) :
  materialize (rootComponent (state (store w))) = Some dom ->
  call extern (RenderApp rootComponent) w =
    (Ok tt, set_root (with_children (clear (rootElement w)) [dom]) w,
     [(RenderApp rootComponent, state (store w))]).
Proof. intros Hdom. unfold call. by rewrite (renderApp_run _ _ dom). Qed.

(** [renderApp] is quiet when the root component always gives a
    renderable tree. *)
Lemma renderApp_quiet (rootComponent : State -> value) :
  (forall s, renderable (rootComponent s) = true) ->
  quiet extern (RenderApp rootComponent).
Proof.
  intros Hwf w.
  destruct (renderable_materialize _ (Hwf (state (store w)))) as [dom Hdom].
  eexists. split; [by apply behaviour_renderApp|]. by split.
Qed.

(** C8. When the tree the root component gives for the state of the
    store is renderable, [createApp]
    returns having put [renderApp] after the listeners of the store,
    written its two lines to the console and called [renderApp] exactly
    once, with the store in the state it had (the initial state, for a
    store no action has been dispatched to); it leaves the state of the
    store alone.  Each call of [renderApp] leaves the root element with
    one child only, whatever children it had: the host node [render]
    makes of the root component applied to the state of the store. *)
Theorem createApp_registers_and_renders (rootComponent : State -> value)
    (w : World) :
  renderable (rootComponent (state (store w))) = true ->
  exists dom,
    (forall container,
       render (rootComponent (state (store w))) container =
         Ok (with_children container [dom], building dom))
    /\ createApp extern rootComponent w =
         (Ok tt,
          mkWorld (mkStore (state (store w)) (reducer (store w))
                           (listeners (store w) ++ [RenderApp rootComponent]))
                  (with_children (clear (rootElement w)) [dom])
                  (console w ++ ["GL.JS Micro-Framework";
                                 "Initializing application..."])
                  (env w),
          [(RenderApp rootComponent, state (store w))])
    /\ hchildren (with_children (clear (rootElement w)) [dom]) = [dom]
    /\ call extern (RenderApp rootComponent) w =
         (Ok tt, set_root (with_children (clear (rootElement w)) [dom]) w,
          [(RenderApp rootComponent, state (store w))]).
Proof.
  intros Hwf.
  destruct (renderable_materialize _ Hwf) as [dom Hdom].
  exists dom. split; [|split; [|split]].
  - intros container. by apply render_materialized.
  - unfold createApp, subscribe, console_log. rewrite !update_bind.
    rewrite (call_renderApp _ _ dom) by exact Hdom.
    cbn [push_listener set_root store state reducer listeners rootElement
         console env].
    by rewrite <-app_assoc.
  - by destruct (rootElement w).
  - by apply call_renderApp.
Qed.

End FluxProperties.

(** ** The counter application *)

Lemma sample_extern_quiet (id : nat) : quiet sample_extern (Extern id).
Proof. intros w. eexists. split; [reflexivity|]. by split. Defined.

Lemma sample_listeners_quiet (ids : list nat) (l : @Listener Z) :
  l ∈ map Extern ids -> quiet sample_extern l.
Proof.
  intros Hl. apply list_elem_of_In, in_map_iff in Hl as (id & <- & _).
  apply sample_extern_quiet.
Defined.

Lemma dispatch_updates_then_notifies_witness :
  exists w',
    dispatch sample_extern "INC"
             (sample_world [RenderApp Counter; Extern 1; Extern 2; Extern 1]) =
      (Ok tt, w',
       [(RenderApp Counter, 1%Z); (Extern 1, 1%Z); (Extern 2, 1%Z); (Extern 1, 1%Z)])
    /\ state (store w') = 1%Z
    /\ env w' = [1; 2; 1]
    /\ map (fun h => map payload (hchildren h)) (hchildren (rootElement w')) =
       [[Some (VNum 1)]].
Proof.
  destruct (dispatch_updates_then_notifies sample_extern "INC"
              (sample_world [RenderApp Counter; Extern 1; Extern 2; Extern 1]) 1%Z)
    as (w' & Hdispatch & Hrun & Hstate).
  - reflexivity.
  - intros l [->|Hl]%elem_of_cons.
    + apply renderApp_quiet. reflexivity.
    + apply (sample_listeners_quiet [1; 2; 1] l Hl).
  - exists w'. split; [exact Hdispatch|]. split; [exact Hstate|].
    vm_compute in Hrun. injection Hrun as <-. split; reflexivity.
Defined.

Lemma dispatch_reducer_throws_witness :
  reducer (store (sample_world [Extern 1])) 0%Z "BOOM" = Throw (Thrown (VStr "boom")) /\
  dispatch sample_extern "BOOM" (sample_world [Extern 1]) =
    (Throw (Thrown (VStr "boom")), sample_world [Extern 1], []).
Proof.
  split; [reflexivity|].
  apply (dispatch_reducer_throws sample_extern "BOOM" (sample_world [Extern 1])).
  reflexivity.
Defined.

Lemma subscribe_appends_each_time_witness :
  exists w1 w2,
    subscribe_times 2 (Extern 7) (sample_world [Extern 7; Extern 8]) = (Ok tt, w1, [])
    /\ listeners (store w1) = [Extern 7; Extern 8; Extern 7; Extern 7]
    /\ dispatch sample_extern "INC" w1 =
         (Ok tt, w2,
          [(Extern 7, 1%Z); (Extern 8, 1%Z); (Extern 7, 1%Z); (Extern 7, 1%Z)])
    /\ env w2 = [7; 8; 7; 7].
Proof.
  destruct (subscribe_appends_each_time sample_extern (Extern 7) 2 "INC"
              (sample_world [Extern 7; Extern 8]) 1%Z)
    as (_ & _ & w1 & w2 & Hsub & Hls & Hdispatch & Hrun).
  - reflexivity.
  - apply (sample_listeners_quiet [7; 8; 7; 7]).
  - exists w1, w2. split; [exact Hsub|]. split; [exact Hls|].
    split; [exact Hdispatch|].
    injection Hsub as <-. vm_compute in Hrun. injection Hrun as <-. reflexivity.
Defined.

Lemma createApp_registers_and_renders_witness :
  exists dom,
    createApp sample_extern Counter (sample_world []) =
      (Ok tt,
       mkWorld (mkStore 0%Z sample_reducer [RenderApp Counter])
               (with_children sample_body [dom])
               ["GL.JS Micro-Framework"; "Initializing application..."] [],
       [(RenderApp Counter, 0%Z)])
    /\ (forall container,
          render (Counter 0%Z) container =
            Ok (with_children container [dom], building dom)).
Proof.
  destruct (createApp_registers_and_renders sample_extern Counter (sample_world [])
              eq_refl)
    as (dom & Hrender & Hrun & _).
  exists dom. split; [exact Hrun | exact Hrender].
Defined.

(** The scenario of the counter: after [createApp] the root shows the
    count 0, and after one "INC" it has been cleared and shows 1. *)
Example counter_end_to_end :
  let shown (w : @World Z string (list nat)) :=
    map (fun h => map payload (hchildren h)) (hchildren (rootElement w)) in
  shown (createApp sample_extern Counter (sample_world [])).1.2
    = [[Some (VNum 0)]]
  /\ shown ((createApp sample_extern Counter;; dispatch sample_extern "INC")
              (sample_world [])).1.2
    = [[Some (VNum 1)]].
Proof. split; by vm_compute. Qed.

(** * Further properties *)

(** ** When render throws *)



(** [render] on a plain object, with its fields read by name. *)
Lemma render_VObj (fields : gmap string value) (container : host) :
  render (VObj fields) container =
  (dom ← (if is_text (default VUndefined (fields !! "type"))
          then createTextNode ""
          else document_createElement (default VUndefined (fields !! "type")));
   dom ← match own_properties (default VUndefined (fields !! "props")) with
         | Ok props => R_ret (apply_props props dom)
         | Throw e => R_throw e
         end;
   match fields !! "children" with
   | Some (VArr children) =>
       dom ← forEach (fun child dom => render child dom) children dom;
       appendChild container dom
   | _ => R_throw TypeError
   end).
Proof.
  cbn [render]. rewrite lookup_fmap.
  destruct (fields !! "children") as [[]|]; reflexivity.
Qed.












(** ** What createElement builds, and render *)

Lemma renderable_wrap_child (x : value) :
  renderable (wrap_child x) =
  if decide (typeof x = "object") then renderable x else true.
Proof. unfold wrap_child. by destruct (decide _). Qed.

Lemma renderable_createElement (type props : value) (args : list value) :
  renderable (createElement type props args) =
  forallb (fun x => if decide (typeof x = "object") then renderable x else true)
          (flat 1 args).
Proof.
  unfold createElement. cbn [renderable].
  assert (match (if truthy props then props else VObj ∅) with
          | VUndefined | VNull => false
          | _ => true
          end = true) as ->.
  { destruct props as [| |[]|n|s| | | |]; try reflexivity.
    - cbn [truthy]. by destruct (negb _).
    - cbn [truthy]. by destruct (negb _). }
  cbn [andb]. induction (flat 1 args) as [|x xs IH]; [reflexivity|].
  cbn [map forallb]. by rewrite renderable_wrap_child, IH.
Qed.

(** X2. A node built from items each of which, after flattening, is
    either not of type ["object"] or a renderable node, renders: on any
    container [render] returns, and the host node it appends has one
    child per flattened item. *)
Theorem createElement_renders (type props : value) (args : list value)
    (container : host) :
  Forall (fun x => typeof x <> "object" \/ renderable x = true) (flat 1 args) ->
  exists dom,
    render (createElement type props args) container =
      Ok (with_children container [dom], building dom)
    /\ length (hchildren dom) = length (flat 1 args).
Proof.
  intros Hargs.
  assert (renderable (createElement type props args) = true) as Hwf.
  { rewrite renderable_createElement.
    induction Hargs as [|x xs Hx _ IH]; [reflexivity|].
    cbn [forallb]. rewrite IH, andb_true_r.
    destruct (decide _); [by destruct Hx | reflexivity]. }
  destruct (renderable_materialize _ Hwf) as [dom Hdom].
  exists dom. split; [by apply render_materialized|].
  destruct (materialize_children _ _ _ _ Hdom) as (Hkids & _ & _).
  apply Forall2_length in Hkids. rewrite <-Hkids. apply length_map.
Qed.

Lemma createElement_renders_witness :
  exists dom,
    render (createElement (VStr "div") VNull
              [VStr "Count: "; VArr [VNum 3; VBool true]; Counter 0])
           sample_body =
      Ok (with_children sample_body [dom], building dom)
    /\ length (hchildren dom) = 4.
Proof.
  apply (createElement_renders (VStr "div") VNull
           [VStr "Count: "; VArr [VNum 3; VBool true]; Counter 0] sample_body).
  cbn.
  repeat first [ apply List.Forall_nil
               | apply List.Forall_cons; [(by left) || (by right)|] ].
Defined.



Lemma wrap_child_typeof (x : value) : typeof (wrap_child x) = "object".
Proof. unfold wrap_child. by destruct (decide _). Qed.

(** X4. Every child of a built node is of type ["object"], whatever
    the arguments were, so wrapping the children again changes nothing. *)
Theorem createElement_children_objects (type props : value) (args : list value) :
  Forall (fun child => typeof child = "object")
         (children_of (createElement type props args))
  /\ map wrap_child (children_of (createElement type props args)) =
     children_of (createElement type props args).
Proof.
  unfold createElement. cbn [children_of].
  induction (flat 1 args) as [|x xs [IH1 IH2]]; [by split|].
  cbn [map]. split.
  - constructor; [apply wrap_child_typeof | exact IH1].
  - by rewrite IH2, (wrap_child_object _ (wrap_child_typeof x)).
Qed.

(** ** One host node for each node object *)

Lemma materialize_counts (node : value) (dom : host) :
  materialize node = Some dom ->
  host_count dom = node_count node
  /\ length (building dom) = 2 * node_count node.
Proof.
  revert dom.
  induction node as [type props children IH|v Hv] using value_node_ind;
    intros dom Hdom.
  - destruct (materialize_children _ _ _ _ Hdom) as (Hkids & _ & _).
    destruct dom as [k ps kids]. cbn [hchildren] in Hkids.
    assert (sum_list (map host_count kids) = sum_list (map node_count children)
            /\ length (concat (map building kids)) =
               2 * sum_list (map node_count children)) as [Hsum Hlen].
    { clear Hdom. revert IH.
      induction Hkids as [|child kid children kids Hck _ IHk]; intros IH.
      - by split.
      - apply Forall_cons in IH as [Hchild IH].
        destruct (Hchild kid Hck) as [Hc1 Hc2].
        destruct (IHk IH) as [Hk1 Hk2].
        cbn [map concat]. rewrite length_app.
        change (sum_list (host_count kid :: map host_count kids))
          with (host_count kid + sum_list (map host_count kids)).
        change (sum_list (node_count child :: map node_count children))
          with (node_count child + sum_list (map node_count children)).
        split; lia. }
    cbn [host_count node_count building length]. rewrite length_app.
    cbn [length]. split; lia.
  - destruct v as [| | | | | | | |type props children]; try discriminate.
    by destruct (Hv type props children).
Qed.

(** X5. Rendering a renderable tree makes exactly one host node for each
    node object of the tree, and performs two building operations for
    each: its creation and its append. *)
Theorem render_one_host_node_each (node : value) (container : host) :
  renderable node = true ->
  exists dom ops,
    render node container = Ok (with_children container [dom], ops)
    /\ host_count dom = node_count node
    /\ length ops = 2 * node_count node.
Proof.
  intros Hwf. destruct (renderable_materialize _ Hwf) as [dom Hdom].
  exists dom, (building dom).
  split; [by apply render_materialized|].
  by apply materialize_counts.
Qed.

Lemma render_one_host_node_each_witness :
  renderable sample_list = true /\
  exists dom ops,
    render sample_list sample_body = Ok (with_children sample_body [dom], ops)
    /\ host_count dom = 7
    /\ length ops = 14.
Proof.
  split; [reflexivity|].
  apply (render_one_host_node_each sample_list sample_body). reflexivity.
Defined.

(** ** More on the store and createApp *)

Section FluxMoreProperties.
Context {State Action Env : Type}.
Variable extern : nat -> @World State Action Env -> result unit * @World State Action Env.

Abbreviation World := (@World State Action Env).
Abbreviation Listener := (@Listener State).

Lemma run_all_app (xs ys : list Listener) (w : World) :
  run_all extern (xs ++ ys) w =
  match run_all extern xs w with
  | (Ok _, w') => run_all extern ys w'
  | (Throw e, w') => (Throw e, w')
  end.
Proof.
  revert w. induction xs as [|x xs IH]; intros w; [reflexivity|].
  cbn [app run_all]. by destruct (behaviour extern x w) as [[[]|e] w1].
Qed.

Lemma entered_app (xs ys : list Listener) (w : World) :
  entered extern (xs ++ ys) w =
  entered extern xs w ++
  match run_all extern xs w with
  | (Ok _, w') => entered extern ys w'
  | (Throw _, _) => []
  end.
Proof.
  revert w. induction xs as [|x xs IH]; intros w; [reflexivity|].
  cbn [app run_all entered].
  destruct (behaviour extern x w) as [[[]|e] w1]; [by rewrite IH|reflexivity].
Qed.

(** The listeners entered are the first of the list, and all of it when
    the run returns. *)
Lemma entered_prefix (ls : list Listener) (w : World) :
  map fst (entered extern ls w) `prefix_of` ls
  /\ ((run_all extern ls w).1 = Ok tt -> map fst (entered extern ls w) = ls).
Proof.
  revert w. induction ls as [|l ls IH]; intros w; [by split|].
  cbn [run_all entered map fst].
  destruct (behaviour extern l w) as [[[]|e] w1].
  - destruct (IH w1) as [Hprefix Hall].
    split; [by apply prefix_cons|]. intros Hr. by rewrite Hall.
  - split; [by apply prefix_cons, prefix_nil | discriminate].
Qed.

(** X6. Provided every listener leaves in place the listeners
    registered so far (it may throw, change the state or subscribe
    more), once the reducer has returned [s'] the outcome of [dispatch]
    and the world it leaves are those of running the listeners in
    subscription order, each once, up to the first that throws: the
    listeners entered are a prefix of the list, the whole list when
    [dispatch] returns, and the first is entered with the store holding
    [s']. *)
Theorem dispatch_calls_in_order (action : Action) (w : World) (s' : State) :
  reducer (store w) (state (store w)) action = Ok s' ->
  (forall l, l ∈ listeners (store w) -> keeps_listeners extern l) ->
  exists r w' calls,
    dispatch extern action w = (r, w', calls)
    /\ run_all extern (listeners (store w)) (set_state s' w) = (r, w')
    /\ map fst calls `prefix_of` listeners (store w)
    /\ (r = Ok tt -> map fst calls = listeners (store w))
    /\ (forall l ls, listeners (store w) = l :: ls ->
          exists rest, calls = (l, s') :: rest).
Proof.
  intros Hred Hkeep. rewrite (dispatch_live extern action w s' Hred Hkeep).
  destruct (entered_prefix (listeners (store w)) (set_state s' w))
    as [Hprefix Hall].
  eexists _, _, _. split; [reflexivity|].
  split; [by destruct (run_all _ _ _)|].
  split; [exact Hprefix|]. split; [exact Hall|].
  intros l ls Hls. rewrite Hls. cbn [entered set_state store state].
  by eexists.
Qed.

Lemma notify_throwing (before after : list Listener) (l : Listener) (e : exn) :
  (forall l', l' ∈ before -> quiet extern l') ->
  throwing extern e l ->
  forall (visited : list Listener) (w : World),
    (visited ++ before ++ l :: after) `prefix_of` listeners (store w) ->
    exists w',
      listeners_forEach (call extern) (length visited)
                        (length (before ++ l :: after)) w =
        (Throw e, w', map (fun l' => (l', state (store w))) (before ++ [l]))
      /\ run_all extern (before ++ l :: after) w = (Throw e, w')
      /\ state (store w') = state (store w).
Proof.
  intros Hquiet Hthrow.
  induction before as [|b before IH]; intros visited w Hprefix.
  - cbn [app length]. rewrite listeners_forEach_step.
    assert (listeners (store w) !! length visited = Some l) as ->.
    { destruct Hprefix as [more ->]. rewrite <-app_assoc.
      by rewrite lookup_app_r, Nat.sub_diag by lia. }
    rewrite call_behaviour. cbn [run_all].
    destruct (Hthrow w) as (w' & -> & Hstate). by exists w'.
  - cbn [app length]. rewrite listeners_forEach_step.
    assert (listeners (store w) !! length visited = Some b) as ->.
    { destruct Hprefix as [more ->]. rewrite <-app_assoc.
      by rewrite lookup_app_r, Nat.sub_diag by lia. }
    rewrite call_behaviour. cbn [run_all map].
    destruct (Hquiet b (list_elem_of_here _ _) w) as (w1 & -> & Hstate1 & Hls1).
    cbn [fst snd].
    destruct (IH (fun l' Hl' => Hquiet l' (list_elem_of_further _ _ _ Hl'))
                 (visited ++ [b]) w1) as (w' & Hrun & Hall & Hstate).
    { rewrite <-app_assoc. cbn [app]. by etrans. }
    rewrite length_app in Hrun. cbn [length] in Hrun.
    replace (length visited + 1) with (S (length visited)) in Hrun by lia.
    rewrite Hrun, Hall, Hstate1. exists w'.
    split; [reflexivity|]. split; [reflexivity | congruence].
Qed.

(** X7. When a listener throws, the listeners before it being quiet,
    [dispatch] throws the same exception; the listeners before it have
    been run, those after it have not, and the store keeps the new
    state: a dispatch is not undone by a listener that fails. *)
Theorem dispatch_listener_throws (action : Action) (w : World) (s' : State)
    (before after : list Listener) (l : Listener) (e : exn) :
  reducer (store w) (state (store w)) action = Ok s' ->
  listeners (store w) = before ++ l :: after ->
  (forall l', l' ∈ before -> quiet extern l') ->
  throwing extern e l ->
  exists w',
    dispatch extern action w =
      (Throw e, w', map (fun l' => (l', s')) (before ++ [l]))
    /\ run_all extern (before ++ [l]) (set_state s' w) = (Throw e, w')
    /\ state (store w') = s'.
Proof.
  intros Hred Hls Hquiet Hthrow. rewrite dispatch_run, Hred, Hls.
  destruct (notify_throwing before after l e Hquiet Hthrow [] (set_state s' w))
    as (w' & Hrun & Hall & Hstate).
  { cbn [app set_state store listeners]. by rewrite Hls. }
  exists w'. split; [exact Hrun|]. split; [|exact Hstate].
  rewrite run_all_app in Hall |- *.
  destruct (run_all extern before (set_state s' w)) as [[[]|e'] w1];
    [|exact Hall].
  cbn [run_all] in Hall |- *.
  destruct (Hthrow w1) as (w2 & Hl & _). by rewrite Hl in Hall |- *.
Qed.


Lemma clear_with_children (h : host) (kids : list host) :
  clear (with_children h kids) = clear h.
Proof. by destruct h. Qed.

Lemma clear_clear (h : host) : clear (clear h) = clear h.
Proof. by destruct h. Qed.

(** When [render] returns, the container has one more child and is
    otherwise as it was. *)
Lemma render_Ok_appends (node : value) (container container' : host)
    (ops : list hostop) :
  render node container = Ok (container', ops) ->
  exists dom, container' = with_children container [dom].
Proof.
  destruct node as [| | | | | | |fields|type props children]; try discriminate.
  - rewrite render_VObj.
    destruct (if is_text _ then _ else _) as [[dom0 ops0]|e0]; [|discriminate].
    rewrite R_bind_Ok.
    destruct (match own_properties _ with Ok _ => _ | Throw _ => _ end)
      as [[dom1 ops1]|e1]; [|discriminate].
    rewrite R_bind_Ok.
    destruct (fields !! "children") as [[| | | | | |children| |]|];
      try discriminate.
    destruct (forEach _ children dom1) as [[dom2 ops2]|e2]; [|discriminate].
    rewrite !R_bind_Ok, appendChild_spec. intros [= <- _]. by exists dom2.
  - rewrite render_node.
    destruct (if is_text _ then _ else _) as [[dom0 ops0]|e0]; [|discriminate].
    rewrite R_bind_Ok.
    destruct (match own_properties _ with Ok _ => _ | Throw _ => _ end)
      as [[dom1 ops1]|e1]; [|discriminate].
    rewrite R_bind_Ok.
    destruct (forEach _ children dom1) as [[dom2 ops2]|e2]; [|discriminate].
    rewrite !R_bind_Ok, appendChild_spec. intros [= <- _]. by exists dom2.
Qed.

(** X9. Running [renderApp] twice in a row gives the same outcome and
    leaves the same world as running it once: children do not pile up
    under the root element. *)
Theorem renderApp_idempotent (rootComponent : State -> value) (w : World) :
  ((renderApp rootComponent;; renderApp rootComponent) w).1 =
  (renderApp rootComponent w).1.
Proof.
  rewrite M_bind_run, renderApp_unfold.
  destruct (render _ (clear (rootElement w))) as [[container ops]|e] eqn:Hrender;
    [|reflexivity].
  destruct (render_Ok_appends _ _ _ _ Hrender) as [dom ->].
  rewrite renderApp_unfold.
  cbn [set_root store rootElement console env].
  by rewrite clear_with_children, clear_clear, Hrender.
Qed.

Lemma renderApp_keeps (rootComponent : State -> value) :
  keeps_listeners extern (RenderApp rootComponent).
Proof.
  intros w. unfold behaviour.
  by destruct (render _ _) as [[container ops]|e].
Qed.

(** X10. When [renderApp] is the last listener, the listeners before it
    are quiet, the reducer returns [s'] and the tree for [s'] is
    renderable, [dispatch] leaves the root element with one child only:
    the host node [render] makes of the root component applied to [s'],
    whatever the root element held and whatever the earlier listeners
    did to it. *)
Theorem dispatch_rerenders (action : Action) (w : World) (s' : State)
    (before : list Listener) (rootComponent : State -> value) :
  reducer (store w) (state (store w)) action = Ok s' ->
  listeners (store w) = before ++ [RenderApp rootComponent] ->
  (forall l, l ∈ before -> quiet extern l) ->
  renderable (rootComponent s') = true ->
  exists w' dom,
    dispatch extern action w =
      (Ok tt, w', map (fun l => (l, s')) (listeners (store w)))
    /\ state (store w') = s'
    /\ hchildren (rootElement w') = [dom]
    /\ (forall container,
          render (rootComponent s') container =
            Ok (with_children container [dom], building dom)).
Proof.
  intros Hred Hls Hquiet Hwf.
  destruct (renderable_materialize _ Hwf) as [dom Hdom].
  destruct (run_all_quiet extern before Hquiet (set_state s' w))
    as (w1 & Hrun & Hent & Hstate1 & _).
  cbn [set_state store state] in Hstate1, Hent.
  exists (set_root (with_children (clear (rootElement w1)) [dom]) w1), dom.
  split; [|split; [exact Hstate1|split]].
  - rewrite (dispatch_live extern action w s' Hred).
    + rewrite Hls, run_all_app, entered_app, Hrun, Hent.
      cbn [run_all entered].
      rewrite (behaviour_renderApp extern _ w1 dom) by (by rewrite Hstate1).
      by rewrite Hstate1, map_app.
    + intros l. rewrite Hls. intros [Hl| ->%list_elem_of_singleton]%elem_of_app.
      * by apply quiet_keeps, Hquiet.
      * apply renderApp_keeps.
  - cbn [set_root rootElement]. by destruct (rootElement w1).
  - intros container. by apply render_materialized.
Qed.

Lemma inert_keeps (l : Listener) : inert extern l -> keeps_listeners extern l.
Proof.
  intros Hl w. destruct (Hl w) as (w' & Hb & Hstore).
  rewrite Hb. cbn [snd]. by rewrite Hstore.
Qed.

Lemma renderApp_inert (rootComponent : State -> value) :
  (forall s, renderable (rootComponent s) = true) ->
  inert extern (RenderApp rootComponent).
Proof.
  intros Hwf w.
  destruct (renderable_materialize _ (Hwf (state (store w)))) as [dom Hdom].
  eexists. split; [by apply behaviour_renderApp|]. reflexivity.
Qed.

Lemma run_all_inert (ls : list Listener) :
  (forall l, l ∈ ls -> inert extern l) ->
  forall w, exists w',
    run_all extern ls w = (Ok tt, w')
    /\ entered extern ls w = map (fun l => (l, state (store w))) ls
    /\ store w' = store w.
Proof.
  induction ls as [|l ls IH]; intros Hinert w.
  - by exists w.
  - destruct (Hinert l (list_elem_of_here _ _) w) as (w1 & Hl & Hstore1).
    destruct (IH (fun l' Hl' => Hinert l' (list_elem_of_further _ _ _ Hl')) w1)
      as (w2 & Hrun & Hent & Hstore2).
    exists w2. cbn [run_all entered map]. rewrite Hl, Hrun, Hent, Hstore1.
    split; [reflexivity|]. split; [reflexivity | congruence].
Qed.

(** X11. With a reducer that always returns, [f], and inert listeners,
    dispatching a list of actions one after another returns; the world
    it leaves is the one reached by taking, for each action in turn,
    the store to its next state and running every listener once, in
    order; the store then holds the fold of [f] over the actions from
    the state it started with, its reducer and listeners as they were,
    and every listener has been entered once for each action with the
    state that action led to. *)
Theorem dispatch_sequence_folds (f : State -> Action -> State)
    (actions : list Action) (w : World) :
  reducer (store w) = (fun s action => Ok (f s action)) ->
  (forall l, l ∈ listeners (store w) -> inert extern l) ->
  forEachM (dispatch extern) actions w =
    (Ok tt, dispatched extern f (listeners (store w)) actions w,
     notifications f (listeners (store w)) (state (store w)) actions)
  /\ store (dispatched extern f (listeners (store w)) actions w) =
     mkStore (fold_left f actions (state (store w)))
             (reducer (store w)) (listeners (store w)).
Proof.
  revert w. induction actions as [|action actions IH]; intros w Hred Hinert.
  - split; [reflexivity|]. cbn [dispatched fold_left]. clear.
    by destruct (store w).
  - destruct (run_all_inert _ Hinert (set_state (f (state (store w)) action) w))
      as (w1 & Hrun & Hent & Hstore1).
    cbn [set_state store state listeners] in Hent, Hstore1.
    rewrite forEachM_cons.
    rewrite (dispatch_live extern action w (f (state (store w)) action)).
    2:{ by rewrite Hred. }
    2:{ intros l Hl. by apply inert_keeps, Hinert. }
    rewrite Hrun, Hent. cbn [fst snd dispatched notifications fold_left].
    rewrite Hrun. cbn [snd].
    destruct (IH w1) as [Hrest Hstore2].
    { by rewrite Hstore1. }
    { by rewrite Hstore1. }
    rewrite Hstore1 in Hrest, Hstore2.
    cbn [state reducer listeners] in Hrest, Hstore2.
    rewrite Hrest. split; [reflexivity|]. by rewrite Hstore2, Hred.
Qed.

End FluxMoreProperties.

(** ** The counter application again *)

Lemma sample_faulty_quiet (id : nat) :
  id <> 0 -> quiet sample_faulty_extern (Extern id).
Proof.
  intros Hid w. unfold behaviour, sample_faulty_extern.
  destruct (decide (id = 0)); [done|]. eexists. split; [reflexivity|]. by split.
Defined.

Lemma sample_faulty_keeps (id : nat) :
  keeps_listeners sample_faulty_extern (Extern id).
Proof.
  intros w. unfold behaviour, sample_faulty_extern.
  by destruct (decide (id = 0)).
Defined.

Lemma sample_faulty_throwing :
  throwing sample_faulty_extern (Thrown (VStr "listener failed")) (Extern 0).
Proof. intros w. eexists. split; reflexivity. Defined.

Lemma sample_extern_inert (id : nat) : inert sample_extern (Extern id).
Proof. intros w. eexists. split; reflexivity. Defined.

Lemma dispatch_calls_in_order_witness :
  exists r w' calls,
    dispatch sample_faulty_extern "INC"
             (sample_world [Extern 1; Extern 0; Extern 2]) = (r, w', calls)
    /\ map fst calls `prefix_of` [Extern 1; Extern 0; Extern 2]
    /\ (exists rest, calls = (Extern 1, 1%Z) :: rest)
    /\ r = Throw (Thrown (VStr "listener failed"))
    /\ env w' = [1].
Proof.
  destruct (dispatch_calls_in_order sample_faulty_extern "INC"
              (sample_world [Extern 1; Extern 0; Extern 2]) 1%Z)
    as (r & w' & calls & Hdispatch & Hrun & Hprefix & _ & Hfirst).
  - reflexivity.
  - intros l Hl. apply list_elem_of_In, (in_map_iff Extern [1; 0; 2]) in Hl
      as (id & <- & _). apply sample_faulty_keeps.
  - exists r, w', calls. split; [exact Hdispatch|]. split; [exact Hprefix|].
    split; [apply (Hfirst (Extern 1) [Extern 0; Extern 2] eq_refl)|].
    vm_compute in Hrun. injection Hrun as <- <-. by split.
Defined.

Lemma dispatch_listener_throws_witness :
  exists w',
    dispatch sample_faulty_extern "INC"
             (sample_world [Extern 1; Extern 0; Extern 2]) =
      (Throw (Thrown (VStr "listener failed")), w',
       [(Extern 1, 1%Z); (Extern 0, 1%Z)])
    /\ state (store w') = 1%Z
    /\ env w' = [1].
Proof.
  destruct (dispatch_listener_throws sample_faulty_extern "INC"
              (sample_world [Extern 1; Extern 0; Extern 2]) 1%Z
              [Extern 1] [Extern 2] (Extern 0) (Thrown (VStr "listener failed")))
    as (w' & Hdispatch & Hrun & Hstate).
  - reflexivity.
  - reflexivity.
  - intros l [->|Hl]%elem_of_cons.
    + apply sample_faulty_quiet. discriminate.
    + by apply elem_of_nil in Hl.
  - apply sample_faulty_throwing.
  - exists w'. split; [exact Hdispatch|]. split; [exact Hstate|].
    vm_compute in Hrun. injection Hrun as <-. reflexivity.
Defined.


Lemma dispatch_rerenders_witness :
  exists w' dom,
    dispatch sample_extern "INC"
             (sample_stale_world [Extern 1; RenderApp Counter]) =
      (Ok tt, w', [(Extern 1, 1%Z); (RenderApp Counter, 1%Z)])
    /\ state (store w') = 1%Z
    /\ hchildren (rootElement w') = [dom]
    /\ (forall container,
          render (Counter 1%Z) container =
            Ok (with_children container [dom], building dom)).
Proof.
  apply (dispatch_rerenders sample_extern "INC"
           (sample_stale_world [Extern 1; RenderApp Counter]) 1%Z
           [Extern 1] Counter).
  - reflexivity.
  - reflexivity.
  - apply (sample_listeners_quiet [1]).
  - reflexivity.
Defined.

Lemma dispatch_sequence_folds_witness :
  exists w',
    forEachM (dispatch sample_extern) ["INC"; "INC"; "DEC"]
             (sample_total_world [RenderApp Counter; Extern 1]) =
      (Ok tt, w',
       [(RenderApp Counter, 1%Z); (Extern 1, 1%Z);
        (RenderApp Counter, 2%Z); (Extern 1, 2%Z);
        (RenderApp Counter, 1%Z); (Extern 1, 1%Z)])
    /\ state (store w') = 1%Z
    /\ env w' = [1; 1; 1]
    /\ map (fun h => map payload (hchildren h)) (hchildren (rootElement w')) =
       [[Some (VNum 1)]].
Proof.
  destruct (dispatch_sequence_folds sample_extern sample_step
              ["INC"; "INC"; "DEC"]
              (sample_total_world [RenderApp Counter; Extern 1]))
    as [Hrun Hstore].
  - reflexivity.
  - intros l [->|Hl]%elem_of_cons.
    + apply renderApp_inert. reflexivity.
    + apply list_elem_of_singleton in Hl as ->. apply sample_extern_inert.
  - eexists. split; [exact Hrun|]. split; [by rewrite Hstore|].
    split; by vm_compute.
Defined.
